(** * Elkapod communication server: a shallow embedding and its properties

    The development follows [elkapod_comm/elkapod_comm_server.py]: the
    [ElkapodCommServer] node that talks to the Hexapod Hardware Controller
    over SPI.  Python integers are [Z] (unbounded), Python floats are
    binary64 primitive floats, Python exceptions are an explicit [result]
    type, and the node with its SPI bus, logger and publisher is an explicit
    state threaded through a small state-and-exception monad. *)

From Stdlib Require Import ZArith List Lia String Bool.
From Stdlib Require Import Floats.PrimFloat Floats.SpecFloat Floats.FloatOps
  Floats.FloatAxioms.
From stdpp Require Import base list.

Set Warnings "-inexact-float".
Open Scope Z_scope.

(** ** Python values and exceptions *)

(** The exceptions the embedded code can meet.  The four protocol
    exceptions of [hexapod_protocol_exceptions] carry their message (what
    [str(e)] returns); they are taken to be four unrelated classes. *)
Inductive exn : Type :=
| IndexError
| ValueError
| OverflowError
| ZeroDivisionError
| EncodingPreconditionError
| MalformedHexapodInfoFrameError (msg : string)
| IncompatibleHexapodProtocolVersionError (msg : string)
| OldHexapodProtocolVersionWarning (msg : string)
| NewHexapodProtocolVersionWarning (msg : string).

(** The outcome of evaluating a Python expression: a value or a raised
    exception. *)
Inductive result (A : Type) : Type :=
| Ok (a : A)
| Raise (e : exn).
Arguments Ok {A} a.
Arguments Raise {A} e.

Definition rbind {A B : Type} (k : A -> result B) (r : result A) : result B :=
  match r with
  | Ok a => k a
  | Raise e => Raise e
  end.

#[global] Instance result_ret : MRet result := fun A => @Ok A.
#[global] Instance result_bind : MBind result := fun A B => @rbind A B.

(** [a << n] on Python integers: a negative shift count raises. *)
Definition py_lshift (a n : Z) : result Z :=
  if n <? 0 then Raise ValueError else Ok (Z.shiftl a n).

(** A byte as the SPI driver hands it over: a Python integer in 0..255. *)
Definition is_byte (z : Z) : Prop := 0 <= z < 256.

(** ** ByteValueCodec: [_convert_bytes_to_value] *)

(** The body of [for i, data in enumerate(datas)], with [n = len(datas)]:
    [value |= data << (len(datas) - i - 1) * 8]. *)
Fixpoint convert_loop (n i : Z) (datas : list Z) (value : Z) : result Z :=
  match datas with
  | [] => Ok value
  | data :: rest =>
      shifted ← py_lshift data ((n - i - 1) * 8);
      convert_loop n (i + 1) rest (Z.lor value shifted)
  end.

Definition _convert_bytes_to_value (datas : list Z) : result Z :=
  convert_loop (Z.of_nat (length datas)) 0 datas 0.

(** The big-endian value as the specification writes it: the sum over the
    positions [i] of [byte[i] << (8 * (n-1-i))]. *)
Definition sum_upto (f : nat -> Z) (n : nat) : Z :=
  fold_right Z.add 0 (map f (seq 0 n)).

Definition big_endian_shift_sum (b : list Z) : Z :=
  sum_upto (fun i => Z.shiftl (nth i b 0) (8 * Z.of_nat (length b - 1 - i)))
           (length b).

Definition big_endian_value (b : list Z) : Z :=
  sum_upto (fun i => nth i b 0 * 256 ^ Z.of_nat (length b - 1 - i)) (length b).

(** The same value by recursion on the sequence (most significant byte
    first), used as the loop invariant. *)
Fixpoint be_value (b : list Z) : Z :=
  match b with
  | [] => 0
  | d :: r => d * 256 ^ Z.of_nat (length r) + be_value r
  end.

(** ** Python floats *)

(** A Python integer as an (unnormalised) binary float [m * 2^0]. *)
Definition Z2SF (z : Z) : spec_float :=
  match z with
  | Z0 => S754_zero false
  | Zpos p => S754_finite false p 0
  | Zneg p => S754_finite true p 0
  end.

(** [a / b] on two Python integers: the quotient correctly rounded to the
    nearest binary64 (ties to even), whatever the size of the operands;
    [ZeroDivisionError] on a zero divisor and [OverflowError] when the
    quotient is too large for a float. *)
Definition py_int_truediv (a b : Z) : result float :=
  if b =? 0 then Raise ZeroDivisionError
  else match SFdiv prec emax (Z2SF a) (Z2SF b) with
       | S754_infinity _ => Raise OverflowError
       | q => Ok (SF2Prim q)
       end.

(** The float [-1.0], by sign, mantissa and exponent. *)
Definition minus_one_SF : spec_float :=
  S754_finite true 4503599627370496 (-52).

(** [float(z)]: the integer rounded to the nearest binary64. *)
Definition py_float_of_int (z : Z) : float :=
  SF2Prim (binary_normalize prec emax z 0 false).

(** [int(x)]: truncation toward zero; not defined on NaN and infinities. *)
Definition py_int_of_float (x : float) : result Z :=
  match Prim2SF x with
  | S754_zero _ => Ok 0
  | S754_finite s m e =>
      let a := Z.shiftl (Zpos m) e in Ok (if s then - a else a)
  | S754_infinity _ => Raise OverflowError
  | S754_nan => Raise ValueError
  end.

(** [round(x)]: the nearest integer, ties to even. *)
Definition py_round (x : float) : result Z :=
  match Prim2SF x with
  | S754_zero _ => Ok 0
  | S754_finite s m e =>
      let a :=
        if 0 <=? e then Z.shiftl (Zpos m) e
        else
          let d := 2 ^ (- e) in
          let q := Zpos m / d in
          let r := Zpos m mod d in
          if 2 * r <? d then q
          else if d <? 2 * r then q + 1
          else if Z.even q then q else q + 1 in
      Ok (if s then - a else a)
  | S754_infinity _ => Raise OverflowError
  | S754_nan => Raise ValueError
  end.

(** ** The imported protocol module *)

Inductive FrameType : Type := INFO | ADC | TEMPERATURE | ONE_LEG.

(** What the server imports from [hexapod_protocol]: the frame catalogue,
    the INFO request, the protocol version string, the frame builder, the
    fixed-point split and the INFO validator.  The module is not part of the
    sources at hand, so the server is modelled over any such module.  A
    receive length is a count of bytes, a [nat]; the other integers are
    Python integers. *)
Record hexapod_protocol : Type := {
  FRAME_LENGTHS_TRANSMIT : FrameType -> Z;
  FRAME_LENGTHS_RECEIVE : FrameType -> nat;
  FrameType_value : FrameType -> Z;
  INFO_FRAME_LIST : list Z;
  __version__ : string;
  one_leg_frame : Z -> list Z -> list Z -> list Z -> result (list Z);
  split_to_integer_and_float_parts : float -> result (Z * Z);
  check_info_frame : list Z -> result unit
}.

(** ** The node and its collaborators *)

(** A call on the SPI device, as the driver sees it. *)
Inductive spi_call : Type :=
| Writebytes2 (values : list Z)
| Readbytes (len : nat).

Inductive severity : Type := LogInfo | LogWarning | LogError | LogFatal.

(** [sensor_msgs/Temperature]. *)
Record Temperature : Type := {
  stamp : Z;
  temperature : float;
  variance : float
}.

(** [elkapod_msgs/LegFrame], with the two arrays already as lists
    ([tolist()]). *)
Record LegFrame : Type := {
  leg_nb : Z;
  servo_op_codes : list Z;
  servo_angles : list float
}.

(** The state the methods of [ElkapodCommServer] act on: the calls made on
    the bus so far (oldest first), the bytes the controller shifts out and
    how many of them have been read, the logger's entries, the messages
    published on [/elkapod_mcu_temp], what was printed, and the clock. *)
Record node : Type := {
  spi_calls : list spi_call;
  miso : nat -> Byte.byte;
  miso_pos : nat;
  logged : list (severity * string);
  mcu_temperature : list Temperature;
  printed_voltage : list float;
  clock : Z
}.

(** A method: it runs on a node, returns or raises, and leaves a node; what
    was done before an exception stays done. *)
Definition M (A : Type) : Type := node -> result A * node.

Definition M_ret {A : Type} (a : A) : M A := fun s => (Ok a, s).

Definition M_bind {A B : Type} (k : A -> M B) (m : M A) : M B :=
  fun s =>
    match m s with
    | (Ok a, s') => k a s'
    | (Raise e, s') => (Raise e, s')
    end.

#[global] Instance M_mret : MRet M := @M_ret.
#[global] Instance M_mbind : MBind M := @M_bind.

(** A pure computation inside a method. *)
Definition lift {A : Type} (r : result A) : M A := fun s => (r, s).

Definition byte_value (b : Byte.byte) : Z := Z.of_N (Byte.to_N b).

(** The next [len] bytes the controller shifts out. *)
Definition response (s : node) (len : nat) : list Z :=
  map (fun i => byte_value (miso s i)) (seq (miso_pos s) len).

Definition spi_writebytes2 (values : list Z) : M unit := fun s =>
  (Ok tt,
   {| spi_calls := spi_calls s ++ [Writebytes2 values];
      miso := miso s; miso_pos := miso_pos s; logged := logged s;
      mcu_temperature := mcu_temperature s;
      printed_voltage := printed_voltage s; clock := clock s |}).

Definition spi_readbytes (len : nat) : M (list Z) := fun s =>
  (Ok (response s len),
   {| spi_calls := spi_calls s ++ [Readbytes len];
      miso := miso s; miso_pos := (miso_pos s + len)%nat; logged := logged s;
      mcu_temperature := mcu_temperature s;
      printed_voltage := printed_voltage s; clock := clock s |}).

Definition log (lvl : severity) (msg : string) : M unit := fun s =>
  (Ok tt,
   {| spi_calls := spi_calls s; miso := miso s; miso_pos := miso_pos s;
      logged := logged s ++ [(lvl, msg)];
      mcu_temperature := mcu_temperature s;
      printed_voltage := printed_voltage s; clock := clock s |}).

Definition publish_mcu_temperature (msg : Temperature) : M unit := fun s =>
  (Ok tt,
   {| spi_calls := spi_calls s; miso := miso s; miso_pos := miso_pos s;
      logged := logged s;
      mcu_temperature := mcu_temperature s ++ [msg];
      printed_voltage := printed_voltage s; clock := clock s |}).

(** [print(f"Voltage: {voltage} V")], kept as the value printed. *)
Definition print_voltage (voltage : float) : M unit := fun s =>
  (Ok tt,
   {| spi_calls := spi_calls s; miso := miso s; miso_pos := miso_pos s;
      logged := logged s; mcu_temperature := mcu_temperature s;
      printed_voltage := printed_voltage s ++ [voltage]; clock := clock s |}).

Definition now : M Z := fun s => (Ok (clock s), s).

(** ** Lists updated in place *)

(** [l[i] = f(l[i])] for an augmented assignment; [IndexError] out of
    range. *)
Definition py_update_item (f : float -> float) (i : nat) (l : list float)
  : result (list float) :=
  match l !! i with
  | Some x => Ok (<[i := f x]> l)
  | None => Raise IndexError
  end.

(** Translation from kinematics ranges to servo ranges:
    [angles[0] += 90; angles[1] += 90; angles[2] *= -1]. *)
Definition translate_angles (angles : list float) : result (list float) :=
  angles ← py_update_item (fun a => a + 90)%float 0 angles;
  angles ← py_update_item (fun a => a + 90)%float 1 angles;
  py_update_item (fun a => a * -1)%float 2 angles.

(** ** The server *)

Section Server.

Variable P : hexapod_protocol.

(** [_send_data]: announce how many bytes follow, then send them. *)
Definition _send_data (nbytes : Z) (bytes_to_be_send : list Z) : M unit :=
  spi_writebytes2 [nbytes];; spi_writebytes2 bytes_to_be_send.

(** The loop [for angle in angles] that fills [angle_int_parts] and
    [angle_float_parts]. *)
Fixpoint split_angles (angles : list float)
    (angle_int_parts angle_float_parts : list Z)
  : result (list Z * list Z) :=
  match angles with
  | [] => Ok (angle_int_parts, angle_float_parts)
  | angle :: rest =>
      parts ← split_to_integer_and_float_parts P angle;
      split_angles rest (angle_int_parts ++ [parts.1])
                   (angle_float_parts ++ [parts.2])
  end.

(** What one turn of the loop of [_leg_frame_callback] computes before it
    touches the bus: [message2]. *)
Definition encode_leg_frame (frame : LegFrame) : result (list Z) :=
  angles ← translate_angles (servo_angles frame);
  parts ← split_angles angles [] [];
  one_leg_frame P (leg_nb frame) (servo_op_codes frame) parts.1 parts.2.

(** One turn of the loop of [_leg_frame_callback]. *)
Definition leg_frame_step (frame : LegFrame) : M unit :=
  message2 ← lift (encode_leg_frame frame);
  _send_data (FRAME_LENGTHS_TRANSMIT P ONE_LEG) message2.

Fixpoint _leg_frame_callback (leg_frames : list LegFrame) : M unit :=
  match leg_frames with
  | [] => mret tt
  | frame :: rest => leg_frame_step frame;; _leg_frame_callback rest
  end.

Definition stable_message : string :=
  String.append
    "Connection with Hardware Controller stable, compatible Hexapod Protocol version -> "
    (__version__ P).

(** The [try] statement of [get_hhc_info]: the four protocol exceptions
    are logged, any other exception propagates. *)
Definition report_info_frame (data : list Z) : M unit :=
  match check_info_frame P data with
  | Ok _ => log LogInfo stable_message
  | Raise (IncompatibleHexapodProtocolVersionError msg)
  | Raise (MalformedHexapodInfoFrameError msg) => log LogError msg
  | Raise (OldHexapodProtocolVersionWarning msg)
  | Raise (NewHexapodProtocolVersionWarning msg) => log LogWarning msg
  | Raise e => lift (Raise e)
  end.

Definition get_hhc_info : M unit :=
  _send_data (FRAME_LENGTHS_TRANSMIT P INFO) (INFO_FRAME_LIST P);;
  data ← spi_readbytes (FRAME_LENGTHS_RECEIVE P INFO);
  report_info_frame data.

Definition get_adc_info : M unit :=
  _send_data (FRAME_LENGTHS_TRANSMIT P ADC)
             [FRAME_LENGTHS_TRANSMIT P ADC; FrameType_value P ADC];;
  data ← spi_readbytes (FRAME_LENGTHS_RECEIVE P ADC);
  raw_voltage ← lift (_convert_bytes_to_value (drop 3 data));
  quotient ← lift (py_int_truediv raw_voltage 4096);
  print_voltage (quotient * 3.3)%float.

Definition get_temperature_info : M unit :=
  _send_data (FRAME_LENGTHS_TRANSMIT P TEMPERATURE)
             [FRAME_LENGTHS_TRANSMIT P TEMPERATURE;
              FrameType_value P TEMPERATURE];;
  data ← spi_readbytes (FRAME_LENGTHS_RECEIVE P TEMPERATURE);
  raw ← lift (_convert_bytes_to_value (drop 2 data));
  temperature ← lift (py_int_truediv raw 1000);
  stamp ← now;
  publish_mcu_temperature
    {| stamp := stamp; temperature := temperature; variance := 0 |}.

End Server.

(** ** The protocol module as the specification describes it *)

(** Modelled from the spec: [split_to_integer_and_float_parts] belongs to
    [hexapod_protocol], which is not among the sources.  The integer part
    is the angle truncated toward zero, the fractional byte is
    [round(|angle - integer_part| * 256)] clamped to [0, 255], and an angle
    out of the representable range is rejected.  The specification leaves
    the range itself open: it is the parameter [representable]. *)
Definition split_to_integer_and_float_parts_spec
    (representable : float -> bool) (angle : float) : result (Z * Z) :=
  if representable angle then
    integer_part ← py_int_of_float angle;
    scaled ← py_round (abs (angle - py_float_of_int integer_part) * 256)%float;
    Ok (integer_part, Z.max 0 (Z.min scaled 255))
  else Raise EncodingPreconditionError.

(** The number of servos of a leg. *)
Definition servos_per_leg : nat := 3.

(** Modelled from the spec: [one_leg_frame] belongs to [hexapod_protocol],
    which is not among the sources.  The payload is the leg id, then the
    operation codes, then the integer parts, then the fractional parts; the
    three sequences must each have the per-leg servo count, and a frame that
    violates this is rejected. *)
Definition one_leg_frame_spec (leg_id : Z)
    (servo_op_codes angle_int_parts angle_float_parts : list Z)
  : result (list Z) :=
  if (length servo_op_codes =? servos_per_leg)%nat
     && (length angle_int_parts =? servos_per_leg)%nat
     && (length angle_float_parts =? servos_per_leg)%nat
  then Ok (leg_id :: servo_op_codes ++ angle_int_parts ++ angle_float_parts)
  else Raise EncodingPreconditionError.

(** A protocol module whose encoder is the one of the specification; the
    catalogue, the INFO request and the validator are those of [base]. *)
Definition with_spec_encoder (representable : float -> bool)
    (base : hexapod_protocol) : hexapod_protocol :=
  {| FRAME_LENGTHS_TRANSMIT := FRAME_LENGTHS_TRANSMIT base;
     FRAME_LENGTHS_RECEIVE := FRAME_LENGTHS_RECEIVE base;
     FrameType_value := FrameType_value base;
     INFO_FRAME_LIST := INFO_FRAME_LIST base;
     __version__ := __version__ base;
     one_leg_frame := one_leg_frame_spec;
     split_to_integer_and_float_parts :=
       split_to_integer_and_float_parts_spec representable;
     check_info_frame := check_info_frame base |}.

(** ** A concrete module and a concrete node, to run the model on *)

Module Example.

(** Angles of at most 180 degrees either way. *)
Definition representable (angle : float) : bool :=
  ((-180 <=? angle) && (angle <=? 180))%float.

(** A validator in the shape of the specification's state machine, for a
    local version 1.0 and a response [length, tag, major, minor]. *)
Definition check_version_1_0 (data : list Z) : result unit :=
  match data with
  | [_; _; major; minor] =>
      if negb (major =? 1)
      then Raise (IncompatibleHexapodProtocolVersionError "incompatible major version")
      else if minor <? 0
      then Raise (OldHexapodProtocolVersionWarning "older minor version")
      else if 0 <? minor
      then Raise (NewHexapodProtocolVersionWarning "newer minor version")
      else Ok tt
  | _ => Raise (MalformedHexapodInfoFrameError "malformed info frame")
  end.

(** Every transmit length is the byte count of the payload of its kind. *)
Definition protocol : hexapod_protocol :=
  {| FRAME_LENGTHS_TRANSMIT := fun k =>
       match k with INFO => 2 | ADC => 2 | TEMPERATURE => 2 | ONE_LEG => 10 end;
     FRAME_LENGTHS_RECEIVE := fun k =>
       match k with
       | INFO => 4%nat | ADC => 5%nat | TEMPERATURE => 4%nat | ONE_LEG => 0%nat
       end;
     FrameType_value := fun k =>
       match k with INFO => 1 | ADC => 2 | TEMPERATURE => 3 | ONE_LEG => 4 end;
     INFO_FRAME_LIST := [2; 1];
     __version__ := "1.0";
     one_leg_frame := one_leg_frame_spec;
     split_to_integer_and_float_parts :=
       split_to_integer_and_float_parts_spec representable;
     check_info_frame := check_version_1_0 |}.

(** A node that has done nothing yet and whose controller answers with
    the bytes of [answer], then zeros. *)
Definition fresh (answer : list Byte.byte) : node :=
  {| spi_calls := [];
     miso := fun i => nth i answer Byte.x00;
     miso_pos := 0;
     logged := [];
     mcu_temperature := [];
     printed_voltage := [];
     clock := 0 |}.

End Example.

(** ** The exchange as the specification describes it *)

(** The calls of one exchange for a frame kind and a payload: the length
    announcement, the payload, and the read of the response for the kinds
    that have one. *)
Definition exchange_calls (P : hexapod_protocol) (k : FrameType)
    (payload : list Z) : list spi_call :=
  [Writebytes2 [FRAME_LENGTHS_TRANSMIT P k]; Writebytes2 payload]
  ++ match k with
     | ONE_LEG => []
     | _ => [Readbytes (FRAME_LENGTHS_RECEIVE P k)]
     end.

(** Whether a run of calls starts with a one-byte announcement followed by
    a payload of exactly the announced count. *)
Definition announced_count_matches (calls : list spi_call) : bool :=
  match calls with
  | Writebytes2 [n] :: Writebytes2 payload :: _ =>
      Z.of_nat (length payload) =? n
  | _ => false
  end.

(** The node after [calls] were made on the bus and [len] bytes were read
    from the controller. *)
Definition after_exchange (s : node) (calls : list spi_call) (len : nat)
  : node :=
  {| spi_calls := spi_calls s ++ calls;
     miso := miso s; miso_pos := (miso_pos s + len)%nat; logged := logged s;
     mcu_temperature := mcu_temperature s;
     printed_voltage := printed_voltage s; clock := clock s |}.

(** The four exceptions of [hexapod_protocol_exceptions]. *)
Definition is_protocol_exception (e : exn) : bool :=
  match e with
  | MalformedHexapodInfoFrameError _
  | IncompatibleHexapodProtocolVersionError _
  | OldHexapodProtocolVersionWarning _
  | NewHexapodProtocolVersionWarning _ => true
  | _ => false
  end.

(** ** The methods called one after the other *)

(** The methods of the node that the executor or a user can call. *)
Inductive method : Type :=
| Get_hhc_info
| Get_adc_info
| Get_temperature_info
| Leg_frame_callback (leg_frames : list LegFrame).

Definition invoke (P : hexapod_protocol) (m : method) : M unit :=
  match m with
  | Get_hhc_info => get_hhc_info P
  | Get_adc_info => get_adc_info P
  | Get_temperature_info => get_temperature_info P
  | Leg_frame_callback leg_frames => _leg_frame_callback P leg_frames
  end.

(** Calls made one at a time, in order; an exception that leaves a method
    ends the run. *)
Fixpoint invoke_all (P : hexapod_protocol) (ms : list method) : M unit :=
  match ms with
  | [] => mret tt
  | m :: rest => invoke P m;; invoke_all P rest
  end.

(** The exchanges of a run, each a frame kind with its payload, and what
    they put on the bus and read from the controller. *)
Definition calls_of_exchanges (P : hexapod_protocol)
    (xs : list (FrameType * list Z)) : list spi_call :=
  flat_map (fun x => exchange_calls P x.1 x.2) xs.



(** The frames of a batch that [_leg_frame_callback] encodes before the
    first one that raises, as payloads, and how the batch ends. *)
Fixpoint batch_payloads (P : hexapod_protocol) (leg_frames : list LegFrame)
  : list (list Z) * result unit :=
  match leg_frames with
  | [] => ([], Ok tt)
  | frame :: rest =>
      match encode_leg_frame P frame with
      | Ok message2 =>
          (message2 :: (batch_payloads P rest).1, (batch_payloads P rest).2)
      | Raise e => ([], Raise e)
      end
  end.

(** A protocol module with other receive lengths. *)
Definition with_receive_lengths (lengths : FrameType -> nat)
    (base : hexapod_protocol) : hexapod_protocol :=
  {| FRAME_LENGTHS_TRANSMIT := FRAME_LENGTHS_TRANSMIT base;
     FRAME_LENGTHS_RECEIVE := lengths;
     FrameType_value := FrameType_value base;
     INFO_FRAME_LIST := INFO_FRAME_LIST base;
     __version__ := __version__ base;
     one_leg_frame := one_leg_frame base;
     split_to_integer_and_float_parts := split_to_integer_and_float_parts base;
     check_info_frame := check_info_frame base |}.

(** ** Construction of the node: [__init__] *)

(** The SPI device once opened and configured. *)
Record SpiDev : Type := {
  max_speed_hz : Z;
  mode : Z
}.

(** What [__init__] sets up: the device, the subscription (topic and queue
    depth, served by [_leg_frame_callback]), the timers (period and
    method) and the publisher. *)
Record wiring : Type := {
  spi : SpiDev;
  subscription : string * Z;
  timers : list (float * method);
  publisher : string * Z
}.

Definition wiring_of (spi_speed : Z) : wiring :=
  {| spi := {| max_speed_hz := spi_speed; mode := 0 |};
     subscription := ("elkapod_comm_server_leg_frames"%string, 10);
     timers := [(30%float, Get_hhc_info); (1%float, Get_temperature_info)];
     publisher := ("/elkapod_mcu_temp"%string, 10) |}.

(** How [__init__] ends: [sys.exit(status)], a node that is set up, or an
    exception out of the first info check. *)
Inductive startup : Type :=
| Exited (status : Z)
| Started (w : wiring)
| Failed (e : exn).

(** [__init__], given what [spi.open(0, 0)] does and the value of the
    [spi_speed] parameter. *)
Definition __init__ (P : hexapod_protocol) (spi_open : result unit)
    (spi_speed : Z) (s : node) : startup * node :=
  match spi_open with
  | Raise _ =>
      (Exited 1,
       (log LogFatal
          "Cannot open SPI connection to Hexapod Hardware Controller! Aborting..."
          s).2)
  | Ok _ =>
      match get_hhc_info P s with
      | (Ok _, s') => (Started (wiring_of spi_speed), s')
      | (Raise e, s') => (Failed e, s')
      end
  end.

(** Whether two methods are the same method without arguments. *)
Definition same_method (a b : method) : bool :=
  match a, b with
  | Get_hhc_info, Get_hhc_info
  | Get_adc_info, Get_adc_info
  | Get_temperature_info, Get_temperature_info => true
  | _, _ => false
  end.

(** The methods a wiring lets the executor call: the subscription's
    callback and the timers' methods. *)
Definition registered (w : wiring) (m : method) : bool :=
  match m with
  | Leg_frame_callback _ => true
  | _ => existsb (fun t => same_method t.2 m) (timers w)
  end.


(** * Properties *)

(** *** Arithmetic of disjoint bit ranges *)

Lemma land_shifted_low a x m :
  0 <= m -> 0 <= x < 2 ^ m -> Z.land (a * 2 ^ m) x = 0.
Proof.
  intros Hm Hx. apply Z.bits_inj'. intros k Hk.
  rewrite Z.land_spec, Z.bits_0.
  destruct (Z.lt_ge_cases k m) as [Hlt | Hge].
  - rewrite Z.mul_pow2_bits_low by lia. reflexivity.
  - rewrite <- (Z.mod_small x (2 ^ m)) by lia.
    rewrite Z.mod_pow2_bits_high by lia. apply andb_false_r.
Qed.

Lemma lor_shifted_low a x m :
  0 <= m -> 0 <= x < 2 ^ m -> Z.lor (a * 2 ^ m) x = a * 2 ^ m + x.
Proof.
  intros Hm Hx.
  pose proof (land_shifted_low a x m Hm Hx) as Hl.
  rewrite <- (Z.lxor_lor _ _ Hl). symmetry. apply Z.add_nocarry_lxor, Hl.
Qed.

Lemma pow256_pos (n : nat) : 0 < 256 ^ Z.of_nat n.
Proof. apply Z.pow_pos_nonneg; lia. Qed.

Lemma pow256_succ (n : nat) : 256 ^ Z.of_nat (S n) = 256 * 256 ^ Z.of_nat n.
Proof. rewrite Nat2Z.inj_succ, Z.pow_succ_r by lia. reflexivity. Qed.

Lemma pow256_as_pow2 (n : nat) : 256 ^ Z.of_nat n = 2 ^ (8 * Z.of_nat n).
Proof. rewrite Z.pow_mul_r by lia. reflexivity. Qed.

Lemma be_value_bounds (b : list Z) :
  Forall is_byte b -> 0 <= be_value b < 256 ^ Z.of_nat (length b).
Proof.
  induction 1 as [| d r Hd Hr IH]; cbn [be_value length].
  - cbn. lia.
  - rewrite pow256_succ. pose proof (pow256_pos (length r)).
    unfold is_byte in Hd. nia.
Qed.

(** *** The loop computes the recursive big-endian value *)

Lemma convert_loop_total (n i : Z) (datas : list Z) (value : Z) :
  0 <= i -> n - i = Z.of_nat (length datas) ->
  exists v, convert_loop n i datas value = Ok v.
Proof.
  revert i value. induction datas as [| d r IH]; intros i value Hi Hn.
  - exists value. reflexivity.
  - cbn [convert_loop length] in *. unfold py_lshift.
    destruct ((n - i - 1) * 8 <? 0) eqn:E; [lia |]. cbn [mbind result_bind rbind].
    apply IH; lia.
Qed.

Lemma convert_loop_be (n i : Z) (datas : list Z) (k : Z) :
  Forall is_byte datas ->
  0 <= i -> n - i = Z.of_nat (length datas) ->
  convert_loop n i datas (k * 256 ^ Z.of_nat (length datas))
  = Ok (k * 256 ^ Z.of_nat (length datas) + be_value datas).
Proof.
  intros Hb. revert i k.
  induction Hb as [| d r Hd Hr IH]; intros i k Hi Hn.
  - cbn. f_equal. lia.
  - cbn [convert_loop length be_value] in *. unfold py_lshift.
    destruct ((n - i - 1) * 8 <? 0) eqn:E; [lia |]. cbn [mbind result_bind rbind].
    replace ((n - i - 1) * 8) with (8 * Z.of_nat (length r)) by lia.
    rewrite Z.shiftl_mul_pow2 by lia.
    rewrite (pow256_as_pow2 (S (length r))).
    rewrite lor_shifted_low.
    + rewrite <- (pow256_as_pow2 (S (length r))), <- pow256_as_pow2.
      rewrite pow256_succ.
      replace (k * (256 * 256 ^ Z.of_nat (length r)) + d * 256 ^ Z.of_nat (length r))
        with ((k * 256 + d) * 256 ^ Z.of_nat (length r)) by ring.
      rewrite IH by lia. f_equal. ring.
    + lia.
    + rewrite <- pow256_as_pow2, <- (pow256_as_pow2 (S (length r))), pow256_succ.
      pose proof (pow256_pos (length r)). unfold is_byte in Hd. nia.
Qed.

Lemma convert_be_value (datas : list Z) :
  Forall is_byte datas -> _convert_bytes_to_value datas = Ok (be_value datas).
Proof.
  intros Hb. unfold _convert_bytes_to_value.
  pose proof (convert_loop_be (Z.of_nat (length datas)) 0 datas 0 Hb) as H.
  rewrite Z.mul_0_l in H. rewrite H by lia. reflexivity.
Qed.

Lemma convert_total (datas : list Z) :
  exists v, _convert_bytes_to_value datas = Ok v.
Proof. apply convert_loop_total; lia. Qed.

(** *** The recursive value is the sum of the specification *)

Lemma sum_upto_S (f : nat -> Z) (n : nat) :
  sum_upto f (S n) = f 0%nat + sum_upto (fun i => f (S i)) n.
Proof.
  unfold sum_upto. cbn [seq map fold_right].
  rewrite <- seq_shift, map_map. reflexivity.
Qed.

Lemma sum_upto_ext (f g : nat -> Z) (n : nat) :
  (forall i, (i < n)%nat -> f i = g i) -> sum_upto f n = sum_upto g n.
Proof.
  revert f g. induction n as [| n IH]; intros f g Hfg; [reflexivity |].
  rewrite !sum_upto_S. rewrite (Hfg 0%nat) by lia. f_equal.
  apply IH. intros i Hi. apply Hfg. lia.
Qed.

Lemma big_endian_value_rec (b : list Z) : big_endian_value b = be_value b.
Proof.
  induction b as [| d r IH]; [reflexivity |].
  unfold big_endian_value in *. cbn [length be_value].
  rewrite sum_upto_S. cbn [nth]. rewrite <- IH. f_equal.
  - do 2 f_equal. lia.
  - apply sum_upto_ext. intros i Hi. do 3 f_equal. lia.
Qed.

Lemma big_endian_shift_sum_value (b : list Z) :
  big_endian_shift_sum b = big_endian_value b.
Proof.
  unfold big_endian_shift_sum, big_endian_value.
  apply sum_upto_ext. intros i Hi.
  rewrite Z.shiftl_mul_pow2 by lia. rewrite pow256_as_pow2. reflexivity.
Qed.

(** *** Claims on the byte-to-value conversion *)

(** C2: on a sequence of bytes the conversion returns the big-endian
    unsigned value, the sum over the positions [i] of [b[i]] shifted left
    by [8*(n-1-i)], which is the sum of [b[i] * 256^(n-1-i)]. *)
Theorem convert_bytes_is_big_endian_sum (b : list Z) :
  Forall is_byte b ->
  _convert_bytes_to_value b = Ok (big_endian_shift_sum b)
  /\ big_endian_shift_sum b = big_endian_value b.
Proof.
  intros Hb. split; [| apply big_endian_shift_sum_value].
  rewrite big_endian_shift_sum_value, big_endian_value_rec.
  apply convert_be_value, Hb.
Qed.

Lemma convert_bytes_is_big_endian_sum_witness :
  _convert_bytes_to_value [91; 160] = Ok (big_endian_shift_sum [91; 160])
  /\ big_endian_shift_sum [91; 160] = big_endian_value [91; 160].
Proof.
  apply (convert_bytes_is_big_endian_sum [91; 160]).
  repeat constructor; unfold is_byte; lia.
Defined.

(** C9: the conversion is total: on every list of integers, the empty one
    included, it returns a value and raises nothing; on the empty list the
    value is 0. *)
Theorem convert_bytes_total_and_zero_on_empty :
  (forall datas : list Z, exists v, _convert_bytes_to_value datas = Ok v)
  /\ _convert_bytes_to_value [] = Ok 0.
Proof. split; [apply convert_total | reflexivity]. Qed.

(** C10: on [n] bytes the conversion returns an integer (a [Z], no
    rounding takes place) that is non-negative and strictly below
    [256^n]. *)
Theorem convert_bytes_range (b : list Z) :
  Forall is_byte b ->
  exists v : Z,
    _convert_bytes_to_value b = Ok v /\ 0 <= v < 256 ^ Z.of_nat (length b).
Proof.
  intros Hb. exists (be_value b). split.
  - apply convert_be_value, Hb.
  - apply be_value_bounds, Hb.
Qed.

Lemma convert_bytes_range_witness :
  exists v : Z,
    _convert_bytes_to_value [255; 255; 255] = Ok v
    /\ 0 <= v < 256 ^ Z.of_nat (length [255; 255; 255]).
Proof.
  apply (convert_bytes_range [255; 255; 255]).
  repeat constructor; unfold is_byte; lia.
Defined.

Lemma repeat_255_bytes (n : nat) : Forall is_byte (repeat 255 n).
Proof. induction n; constructor; [unfold is_byte; lia | assumption]. Qed.

(** C7, as stated, fails: nine bytes, more than any 64-bit integer holds,
    are converted to [2^64] and no [OverflowError] is raised. *)
Lemma convert_nine_bytes_no_overflow_error :
  _convert_bytes_to_value [1; 0; 0; 0; 0; 0; 0; 0; 0] = Ok (2 ^ 64)
  /\ _convert_bytes_to_value [1; 0; 0; 0; 0; 0; 0; 0; 0] <> Raise OverflowError.
Proof. split; [reflexivity | discriminate]. Qed.

(** C7, amended: the conversion is defined for every byte sequence of any
    length: it returns the big-endian value and never raises
    [OverflowError]; no width bounds the value, the sequence of [n] bytes
    255 is converted to [256^n - 1]. *)
Theorem convert_bytes_defined_at_every_length (b : list Z) :
  Forall is_byte b ->
  _convert_bytes_to_value b = Ok (big_endian_value b)
  /\ _convert_bytes_to_value b <> Raise OverflowError
  /\ _convert_bytes_to_value (repeat 255 (length b))
     = Ok (256 ^ Z.of_nat (length b) - 1).
Proof.
  intros Hb. rewrite big_endian_value_rec, (convert_be_value b Hb).
  split; [reflexivity |]. split; [discriminate |].
  rewrite convert_be_value by apply repeat_255_bytes.
  f_equal. induction (length b) as [| n IH]; [reflexivity |].
  cbn [repeat be_value]. rewrite repeat_length, IH, pow256_succ. ring.
Qed.

Lemma convert_bytes_defined_at_every_length_witness :
  _convert_bytes_to_value [1; 0; 0; 0; 0; 0; 0; 0; 0]
  = Ok (big_endian_value [1; 0; 0; 0; 0; 0; 0; 0; 0])
  /\ _convert_bytes_to_value [1; 0; 0; 0; 0; 0; 0; 0; 0] <> Raise OverflowError
  /\ _convert_bytes_to_value (repeat 255 (length [1; 0; 0; 0; 0; 0; 0; 0; 0]))
     = Ok (256 ^ Z.of_nat (length [1; 0; 0; 0; 0; 0; 0; 0; 0]) - 1).
Proof.
  apply (convert_bytes_defined_at_every_length [1; 0; 0; 0; 0; 0; 0; 0; 0]).
  repeat constructor; unfold is_byte; lia.
Defined.

(** *** The float primitives on sample values *)

Example int_truediv_small : py_int_truediv 1 3 = Ok 0.3333333333333333%float.
Proof. reflexivity. Qed.

Example int_truediv_zero : py_int_truediv 0 1000 = Ok 0%float.
Proof. reflexivity. Qed.

Example int_truediv_beyond_53_bits :
  py_int_truediv (2 ^ 64 - 1) 1000 = Ok 1.844674407370955e+16%float
  /\ py_int_truediv (2 ^ 53 + 1) 4096 = Ok 2199023255552%float
  /\ py_int_truediv (2 ^ 100 + 12345) 1000 = Ok 1.2676506002282294e+27%float.
Proof. repeat split. Qed.

Example int_truediv_too_large :
  py_int_truediv (2 ^ 1040) 1000 = Raise OverflowError.
Proof. reflexivity. Qed.

Example int_truediv_by_zero : py_int_truediv 5 0 = Raise ZeroDivisionError.
Proof. reflexivity. Qed.

Example float_of_int_rounds :
  py_float_of_int (2 ^ 53 + 1) = 9007199254740992%float.
Proof. reflexivity. Qed.

Example int_of_float_truncates :
  py_int_of_float (-30.75)%float = Ok (-30)
  /\ py_int_of_float 70.5%float = Ok 70
  /\ py_int_of_float nan = Raise ValueError.
Proof. repeat split. Qed.

Example round_ties_to_even :
  py_round 2.5%float = Ok 2 /\ py_round 3.5%float = Ok 4
  /\ py_round (0.998 * 256)%float = Ok 255.
Proof. repeat split. Qed.

Example split_of_the_specification :
  split_to_integer_and_float_parts_spec Example.representable 70.5%float
  = Ok (70, 128)
  /\ split_to_integer_and_float_parts_spec Example.representable (-30.25)%float
     = Ok (-30, 64)
  /\ split_to_integer_and_float_parts_spec Example.representable 200%float
     = Raise EncodingPreconditionError.
Proof. repeat split. Qed.

(** *** Binary64 arithmetic of the angle translation *)

Lemma pos_mul_2p52 (m : positive) :
  (4503599627370496 * m)%positive
  = (m~0~0~0~0~0~0~0~0~0~0~0~0~0~0~0~0~0~0~0~0~0~0~0~0~0~0
      ~0~0~0~0~0~0~0~0~0~0~0~0~0~0~0~0~0~0~0~0~0~0~0~0~0~0)%positive.
Proof. reflexivity. Qed.

Lemma digits2_pos_shift52 (m : positive) :
  Z.pos (digits2_pos (4503599627370496 * m)) = Z.pos (digits2_pos m) + 52.
Proof. rewrite pos_mul_2p52. cbn [digits2_pos]. lia. Qed.

Lemma shr_52_exact (m : positive) (e : Z) :
  shr (shr_record_of_loc (Z.pos (4503599627370496 * m)) loc_Exact) e 52
  = ({| shr_m := Z.pos m; shr_r := false; shr_s := false |}, e + 52).
Proof. reflexivity. Qed.

(** Multiplying a well-formed binary64 by -1 only flips its sign: the
    mantissa is shifted by 52 bits and shifted back with nothing lost. *)
Lemma SFmul_minus_one (x : spec_float) :
  valid_binary x = true -> SFmul prec emax x minus_one_SF = SFopp x.
Proof.
  destruct x as [sx | sx | | sx mx ex]; cbn [SFmul minus_one_SF SFopp];
    rewrite ?xorb_true_r; try reflexivity.
  intros Hv. cbn [SpecFloat.valid_binary] in Hv.
  unfold bounded, canonical_mantissa in Hv.
  apply andb_true_iff in Hv as [Hc He]. apply Z.eqb_eq in Hc.
  rewrite Pos.mul_comm. unfold binary_round_aux, shr_fexp.
  unfold Zdigits2 at 1. rewrite digits2_pos_shift52.
  replace (Z.pos (digits2_pos mx) + 52 + (ex + -52))
    with (Z.pos (digits2_pos mx) + ex) by lia.
  rewrite Hc. replace (ex - (ex + -52)) with 52 by lia.
  rewrite shr_52_exact.
  cbn [shr_m loc_of_shr_record shr_r shr_s round_nearest_even Zdigits2].
  replace (ex + -52 + 52) with ex by lia.
  rewrite Hc, Z.sub_diag. cbn [shr shr_record_of_loc shr_m].
  rewrite He. reflexivity.
Qed.

Lemma mul_minus_one (x : float) : (x * -1 = - x)%float.
Proof.
  apply Prim2SF_inj. rewrite mul_spec, opp_spec.
  change (Prim2SF (-1)%float) with minus_one_SF.
  apply SFmul_minus_one, Prim2SF_valid.
Qed.

Lemma translate_three_angles (a0 a1 a2 : float) :
  translate_angles [a0; a1; a2] = Ok [a0 + 90; a1 + 90; - a2]%float.
Proof.
  unfold translate_angles, py_update_item. cbn. rewrite mul_minus_one.
  reflexivity.
Qed.

(** *** Claims on the command path *)

(** C1: for a leg frame with kinematic angles [a0, a1, a2] the angles
    handed to the fixed-point split are [a0 + 90], [a1 + 90] and [-a2], in
    this order, whatever the split and the frame builder are; kinematic
    angles [10.0, -20.0, 30.0] become servo angles [100.0, 70.0, -30.0]. *)
Theorem leg_frame_servo_angles (P : hexapod_protocol) (leg_id : Z)
    (op_codes : list Z) (a0 a1 a2 : float) :
  translate_angles [a0; a1; a2] = Ok [a0 + 90; a1 + 90; - a2]%float
  /\ encode_leg_frame P
       {| leg_nb := leg_id; servo_op_codes := op_codes;
          servo_angles := [a0; a1; a2] |}
     = (p0 ← split_to_integer_and_float_parts P (a0 + 90)%float;
        p1 ← split_to_integer_and_float_parts P (a1 + 90)%float;
        p2 ← split_to_integer_and_float_parts P (- a2)%float;
        one_leg_frame P leg_id op_codes [p0.1; p1.1; p2.1] [p0.2; p1.2; p2.2])
  /\ translate_angles [10; -20; 30]%float = Ok [100; 70; -30]%float.
Proof.
  split; [apply translate_three_angles |]. split; [| reflexivity].
  unfold encode_leg_frame. cbn [servo_angles leg_nb servo_op_codes].
  rewrite translate_three_angles. cbn [mbind result_bind rbind split_angles].
  destruct (split_to_integer_and_float_parts P (a0 + 90)%float) as [p0 |];
    [| reflexivity]; cbn [rbind].
  destruct (split_to_integer_and_float_parts P (a1 + 90)%float) as [p1 |];
    [| reflexivity]; cbn [rbind].
  destruct (split_to_integer_and_float_parts P (- a2)%float) as [p2 |];
    [| reflexivity]; cbn [rbind app].
  reflexivity.
Qed.

(** *** Runs of the methods *)

(** Unfolds the monad of methods and the primitives of the node. *)
Ltac run_method :=
  unfold mbind, M_mbind, M_bind, mret, M_mret, M_ret, lift,
    spi_writebytes2, spi_readbytes, log, publish_mcu_temperature,
    print_voltage, now;
  cbn [fst snd spi_calls miso miso_pos logged mcu_temperature
       printed_voltage clock].

Lemma byte_value_is_byte (b : Byte.byte) : is_byte (byte_value b).
Proof.
  unfold is_byte, byte_value. pose proof (Byte.to_N_bounded b). lia.
Qed.

Lemma response_bytes (s : node) (len : nat) : Forall is_byte (response s len).
Proof.
  unfold response. generalize (seq (miso_pos s) len) as l.
  induction l; constructor; [apply byte_value_is_byte | assumption].
Qed.

Lemma response_length (s : node) (len : nat) : length (response s len) = len.
Proof. unfold response. rewrite length_map, length_seq. reflexivity. Qed.

Lemma convert_response_tail (s : node) (len skip : nat) :
  _convert_bytes_to_value (drop skip (response s len))
  = Ok (big_endian_value (drop skip (response s len))).
Proof.
  rewrite big_endian_value_rec. apply convert_be_value, Forall_drop, response_bytes.
Qed.

Lemma send_data_run (nbytes : Z) (payload : list Z) (s : node) :
  _send_data nbytes payload s
  = (Ok tt, after_exchange s [Writebytes2 [nbytes]; Writebytes2 payload] 0).
Proof.
  unfold _send_data, after_exchange. run_method.
  rewrite <- app_assoc, Nat.add_0_r. reflexivity.
Qed.

Lemma send_read_run {A : Type} (nbytes : Z) (payload : list Z) (len : nat)
    (k : list Z -> M A) (s : node) :
  (_send_data nbytes payload;; data ← spi_readbytes len; k data) s
  = k (response s len)
      (after_exchange s
         [Writebytes2 [nbytes]; Writebytes2 payload; Readbytes len] len).
Proof.
  unfold _send_data, after_exchange. run_method.
  rewrite <- !app_assoc. reflexivity.
Qed.

(** *** Claims on telemetry *)

(** C4: the temperature published for a Temperature response is the
    big-endian value of the bytes after its first two, divided by 1000 (an
    integer division into a binary64); a raw count of 23456 gives 23.456
    degrees Celsius. *)
Theorem temperature_is_raw_count_over_1000 (P : hexapod_protocol) (s : node) :
  let data := response s (FRAME_LENGTHS_RECEIVE P TEMPERATURE) in
  let r := get_temperature_info P s in
  match py_int_truediv (big_endian_value (drop 2 data)) 1000 with
  | Ok degrees =>
      r.1 = Ok tt
      /\ mcu_temperature r.2
         = mcu_temperature s
           ++ [{| stamp := clock s; temperature := degrees; variance := 0 |}]
  | Raise e => r.1 = Raise e /\ mcu_temperature r.2 = mcu_temperature s
  end
  /\ py_int_truediv 23456 1000 = Ok 23.456%float.
Proof.
  intros data r. split; [| reflexivity].
  subst r. unfold get_temperature_info. rewrite send_read_run.
  fold data. run_method. unfold data. rewrite convert_response_tail.
  cbn [fst snd]. fold data.
  destruct (py_int_truediv (big_endian_value (drop 2 data)) 1000);
    cbn; split; reflexivity.
Qed.

(** C5: the voltage reported for an Adc response is the big-endian value of
    its trailing bytes (those after the first three) divided by 4096 and
    multiplied by 3.3; a raw count of 2048 gives 1.65 V. *)
Theorem voltage_is_raw_count_over_4096_times_3_3
    (P : hexapod_protocol) (s : node) :
  let data := response s (FRAME_LENGTHS_RECEIVE P ADC) in
  let r := get_adc_info P s in
  match py_int_truediv (big_endian_value (drop 3 data)) 4096 with
  | Ok quotient =>
      r.1 = Ok tt
      /\ printed_voltage r.2 = printed_voltage s ++ [(quotient * 3.3)%float]
  | Raise e => r.1 = Raise e /\ printed_voltage r.2 = printed_voltage s
  end
  /\ (quotient ← py_int_truediv 2048 4096; Ok (quotient * 3.3)%float)
     = Ok 1.65%float.
Proof.
  intros data r. split; [| reflexivity].
  subst r. unfold get_adc_info. rewrite send_read_run.
  fold data. run_method. unfold data. rewrite convert_response_tail.
  cbn [fst snd]. fold data.
  destruct (py_int_truediv (big_endian_value (drop 3 data)) 4096);
    cbn; split; reflexivity.
Qed.

(** The two scenarios, run on a controller that answers with the raw
    counts 23456 and 2048. *)
Example temperature_scenario :
  mcu_temperature
    (get_temperature_info Example.protocol
       (Example.fresh [Byte.x04; Byte.x03; Byte.x5b; Byte.xa0])).2
  = [{| stamp := 0; temperature := 23.456; variance := 0 |}].
Proof. reflexivity. Qed.

Example voltage_scenario :
  printed_voltage
    (get_adc_info Example.protocol
       (Example.fresh [Byte.x05; Byte.x02; Byte.x00; Byte.x08; Byte.x00])).2
  = [1.65%float].
Proof. reflexivity. Qed.

(** *** Claim on the info check *)

(** C8: whatever the INFO response and the validator, the check logs its
    classification and lets none of the four protocol exceptions out: a
    valid frame is logged at info level, a malformed frame and an
    incompatible version at error level, an older and a newer version at
    warning level, each with its message, and the method returns. *)
Theorem info_check_logs_and_returns (P : hexapod_protocol) (s : node) :
  let data := response s (FRAME_LENGTHS_RECEIVE P INFO) in
  let r := get_hhc_info P s in
  match r.1 with
  | Ok _ => True
  | Raise e => is_protocol_exception e = false
  end
  /\ match check_info_frame P data with
     | Ok _ =>
         r.1 = Ok tt /\ logged r.2 = logged s ++ [(LogInfo, stable_message P)]
     | Raise (MalformedHexapodInfoFrameError msg)
     | Raise (IncompatibleHexapodProtocolVersionError msg) =>
         r.1 = Ok tt /\ logged r.2 = logged s ++ [(LogError, msg)]
     | Raise (OldHexapodProtocolVersionWarning msg)
     | Raise (NewHexapodProtocolVersionWarning msg) =>
         r.1 = Ok tt /\ logged r.2 = logged s ++ [(LogWarning, msg)]
     | Raise e => r.1 = Raise e /\ logged r.2 = logged s
     end.
Proof.
  intros data r. subst r. unfold get_hhc_info. rewrite send_read_run.
  fold data. unfold report_info_frame.
  destruct (check_info_frame P data) as [[] | []]; cbn; auto.
Qed.

(** *** Claim on the exchange *)

(** C3, as stated, fails: the session writes whatever payload it is handed
    and does not compare its count with the announcement.  With an
    announced length of 2 and a payload of three bytes it announces 2 and
    writes the three bytes; and whatever the catalogue length of a kind is,
    a payload one byte longer is announced with that length. *)
Lemma send_data_does_not_check_the_count :
  spi_calls (_send_data 2 [7; 7; 7] (Example.fresh [])).2
  = [Writebytes2 [2]; Writebytes2 [7; 7; 7]]
  /\ announced_count_matches
       (spi_calls (_send_data 2 [7; 7; 7] (Example.fresh [])).2)
     = false
  /\ (forall (P : hexapod_protocol) (k : FrameType),
        announced_count_matches
          (spi_calls
             (_send_data (FRAME_LENGTHS_TRANSMIT P k)
                (repeat 0 (S (Z.to_nat (FRAME_LENGTHS_TRANSMIT P k))))
                (Example.fresh [])).2)
        = false).
Proof.
  split; [reflexivity |]. split; [reflexivity |].
  intros P k. rewrite send_data_run.
  cbn [snd after_exchange spi_calls Example.fresh app announced_count_matches].
  rewrite repeat_length. apply Z.eqb_neq. lia.
Qed.

(** C3, amended: every exchange first writes a single-byte announcement
    equal to the catalogue transmit length of its kind, then writes the
    payload as it was handed over, and then, for Info, Adc and Temperature,
    reads exactly the catalogue receive length, in that order and with
    nothing in between; the payload's count equals the announced length
    exactly when the payload handed over has the catalogue length, which
    the session does not check. *)
Theorem exchange_is_announce_payload_read (P : hexapod_protocol) (s : node) :
  (forall nbytes payload,
     spi_calls (_send_data nbytes payload s).2
     = spi_calls s ++ [Writebytes2 [nbytes]; Writebytes2 payload])
  /\ spi_calls (get_hhc_info P s).2
     = spi_calls s ++ exchange_calls P INFO (INFO_FRAME_LIST P)
  /\ spi_calls (get_adc_info P s).2
     = spi_calls s
       ++ exchange_calls P ADC
            [FRAME_LENGTHS_TRANSMIT P ADC; FrameType_value P ADC]
  /\ spi_calls (get_temperature_info P s).2
     = spi_calls s
       ++ exchange_calls P TEMPERATURE
            [FRAME_LENGTHS_TRANSMIT P TEMPERATURE;
             FrameType_value P TEMPERATURE]
  /\ (forall frame,
        spi_calls (leg_frame_step P frame s).2
        = match encode_leg_frame P frame with
          | Ok message2 => spi_calls s ++ exchange_calls P ONE_LEG message2
          | Raise _ => spi_calls s
          end)
  /\ (forall k payload,
        announced_count_matches (exchange_calls P k payload)
        = (Z.of_nat (length payload) =? FRAME_LENGTHS_TRANSMIT P k)).
Proof.
  split; [| split; [| split; [| split; [| split]]]].
  - intros nbytes payload. rewrite send_data_run. reflexivity.
  - unfold get_hhc_info. rewrite send_read_run. unfold report_info_frame.
    destruct (check_info_frame P _) as [[] | []]; reflexivity.
  - unfold get_adc_info. rewrite send_read_run. run_method.
    rewrite convert_response_tail.
    destruct (py_int_truediv _ 4096); reflexivity.
  - unfold get_temperature_info. rewrite send_read_run. run_method.
    rewrite convert_response_tail.
    destruct (py_int_truediv _ 1000); reflexivity.
  - intros frame. unfold leg_frame_step. run_method.
    destruct (encode_leg_frame P frame) as [message2 |]; [| reflexivity].
    fold (_send_data (FRAME_LENGTHS_TRANSMIT P ONE_LEG) message2 s).
    rewrite send_data_run. reflexivity.
  - intros k payload. destruct k; reflexivity.
Qed.

(** *** Claim on rejected leg commands *)

Lemma translate_angles_length (angles servo : list float) :
  translate_angles angles = Ok servo -> length servo = length angles.
Proof.
  unfold translate_angles, py_update_item. intros H.
  destruct (angles !! 0%nat); [| discriminate]. cbn in H.
  destruct (_ !! 1%nat); [| discriminate]. cbn in H.
  destruct (_ !! 2%nat); [| discriminate].
  injection H as <-. rewrite !length_insert. reflexivity.
Qed.

Lemma split_angles_lengths (P : hexapod_protocol) (angles : list float)
    (ints fracs : list Z) (parts : list Z * list Z) :
  split_angles P angles ints fracs = Ok parts ->
  length parts.1 = (length ints + length angles)%nat
  /\ length parts.2 = (length fracs + length angles)%nat.
Proof.
  revert ints fracs. induction angles as [| a rest IH]; intros ints fracs H.
  - injection H as <-. cbn. lia.
  - cbn [split_angles] in H.
    destruct (split_to_integer_and_float_parts P a) as [p |]; [| discriminate].
    apply IH in H. rewrite !length_app in H. cbn [length] in *. lia.
Qed.

Lemma split_angles_rejects (representable : float -> bool)
    (base : hexapod_protocol) (angles : list float) (ints fracs : list Z) :
  Exists (fun a => representable a = false) angles ->
  exists e,
    split_angles (with_spec_encoder representable base) angles ints fracs
    = Raise e.
Proof.
  intros Hex. revert ints fracs.
  induction Hex as [a rest Ha | a rest Hrest IH]; intros ints fracs;
    cbn [split_angles with_spec_encoder split_to_integer_and_float_parts].
  - unfold split_to_integer_and_float_parts_spec. rewrite Ha.
    exists EncodingPreconditionError. reflexivity.
  - destruct (split_to_integer_and_float_parts_spec representable a) as [p | e].
    + apply IH.
    + exists e. reflexivity.
Qed.

Lemma encode_rejects (representable : float -> bool) (base : hexapod_protocol)
    (frame : LegFrame) :
  length (servo_op_codes frame) <> length (servo_angles frame)
  \/ (exists servo,
        translate_angles (servo_angles frame) = Ok servo
        /\ Exists (fun a => representable a = false) servo) ->
  exists e,
    encode_leg_frame (with_spec_encoder representable base) frame = Raise e.
Proof.
  intros H. unfold encode_leg_frame.
  destruct (translate_angles (servo_angles frame)) as [servo | e] eqn:Ht;
    [| exists e; reflexivity].
  cbn [mbind result_bind rbind].
  destruct (split_angles _ servo [] []) as [parts | e] eqn:Hs;
    [| exists e; reflexivity].
  cbn [mbind result_bind rbind]. destruct H as [Hlen | (servo' & Hservo & Hex)].
  - apply translate_angles_length in Ht. apply split_angles_lengths in Hs.
    cbn [length] in Hs. destruct Hs as [Hi Hf].
    cbn [with_spec_encoder one_leg_frame]. unfold one_leg_frame_spec.
    destruct (_ && _) eqn:E; [| exists EncodingPreconditionError; reflexivity].
    apply andb_true_iff in E as [E _]. apply andb_true_iff in E as [E1 E2].
    apply Nat.eqb_eq in E1, E2. lia.
  - injection Hservo as <-.
    destruct (split_angles_rejects representable base servo [] [] Hex) as [e He].
    rewrite He in Hs. discriminate.
Qed.

Lemma malformed_leg_command_rejected (representable : float -> bool)
    (base : hexapod_protocol) (frame : LegFrame) (s : node) :
  length (servo_op_codes frame) <> length (servo_angles frame)
  \/ (exists servo,
        translate_angles (servo_angles frame) = Ok servo
        /\ Exists (fun a => representable a = false) servo) ->
  exists e,
    leg_frame_step (with_spec_encoder representable base) frame s
    = (Raise e, s).
Proof.
  intros H. destruct (encode_rejects representable base frame H) as [e He].
  unfold leg_frame_step. run_method. rewrite He. exists e. reflexivity.
Qed.

(** C6: with the encoder of the specification, a leg command whose opcode
    and angle sequences differ in length, or one of whose servo angles is
    outside the representable range, is rejected before anything is written:
    the turn of the loop raises and leaves the node, its bus included, as it
    was. *)
Theorem malformed_leg_command_writes_nothing (representable : float -> bool)
    (base : hexapod_protocol) (frame : LegFrame) (s : node) :
  length (servo_op_codes frame) <> length (servo_angles frame)
  \/ (exists servo,
        translate_angles (servo_angles frame) = Ok servo
        /\ Exists (fun a => representable a = false) servo) ->
  (exists e,
     leg_frame_step (with_spec_encoder representable base) frame s
     = (Raise e, s))
  /\ spi_calls
       (leg_frame_step (with_spec_encoder representable base) frame s).2
     = spi_calls s.
Proof.
  intros H.
  destruct (malformed_leg_command_rejected representable base frame s H)
    as [e He].
  rewrite He. split; [exists e |]; reflexivity.
Qed.

Lemma malformed_leg_command_writes_nothing_witness :
  (exists e,
     leg_frame_step (with_spec_encoder Example.representable Example.protocol)
       {| leg_nb := 2; servo_op_codes := [1; 1];
          servo_angles := [10; -20; 30]%float |}
       (Example.fresh [])
     = (Raise e, Example.fresh []))
  /\ spi_calls
       (leg_frame_step
          (with_spec_encoder Example.representable Example.protocol)
          {| leg_nb := 2; servo_op_codes := [1; 1];
             servo_angles := [10; -20; 30]%float |}
          (Example.fresh [])).2
     = spi_calls (Example.fresh []).
Proof.
  apply (malformed_leg_command_writes_nothing Example.representable
           Example.protocol
           {| leg_nb := 2; servo_op_codes := [1; 1];
              servo_angles := [10; -20; 30]%float |}
           (Example.fresh [])).
  left. cbn. lia.
Defined.

(** The frames of a batch are sent in order, and a rejected frame ends the
    batch: nothing of it or of the frames after it reaches the bus. *)
Lemma callback_app (P : hexapod_protocol) (before rest : list LegFrame)
    (s : node) :
  _leg_frame_callback P (before ++ rest) s
  = match _leg_frame_callback P before s with
    | (Ok _, s') => _leg_frame_callback P rest s'
    | (Raise e, s') => (Raise e, s')
    end.
Proof.
  revert s. induction before as [| f before IH]; intros s; [reflexivity |].
  cbn [app _leg_frame_callback]. unfold mbind, M_mbind, M_bind.
  destruct (leg_frame_step P f s) as [[[] | e] s']; [apply IH | reflexivity].
Qed.

Lemma rejected_frame_ends_the_batch (representable : float -> bool)
    (base : hexapod_protocol) (before rest : list LegFrame) (frame : LegFrame)
    (s : node) :
  length (servo_op_codes frame) <> length (servo_angles frame)
  \/ (exists servo,
        translate_angles (servo_angles frame) = Ok servo
        /\ Exists (fun a => representable a = false) servo) ->
  spi_calls
    (_leg_frame_callback (with_spec_encoder representable base)
       (before ++ frame :: rest) s).2
  = spi_calls
      (_leg_frame_callback (with_spec_encoder representable base) before s).2.
Proof.
  intros H. rewrite callback_app.
  destruct (_leg_frame_callback _ before s) as [[[] | e] s']; [| reflexivity].
  cbn [_leg_frame_callback]. unfold mbind, M_mbind, M_bind.
  destruct (malformed_leg_command_rejected representable base frame s' H)
    as [e He].
  rewrite He. reflexivity.
Qed.

(** * Further properties of the server *)

(** *** The byte-to-value conversion: concatenation and injectivity *)

Lemma be_value_app (b1 b2 : list Z) :
  be_value (b1 ++ b2)
  = be_value b1 * 256 ^ Z.of_nat (length b2) + be_value b2.
Proof.
  induction b1 as [| d r IH]; [cbn; lia |].
  cbn [app be_value]. rewrite IH, length_app, Nat2Z.inj_add.
  rewrite Z.pow_add_r by lia. ring.
Qed.

Lemma be_value_zeros (k : nat) : be_value (repeat 0 k) = 0.
Proof. induction k as [| k IH]; [reflexivity |]. cbn. rewrite IH. lia. Qed.

Lemma be_value_injective (b1 b2 : list Z) :
  Forall is_byte b1 -> Forall is_byte b2 -> length b1 = length b2 ->
  be_value b1 = be_value b2 -> b1 = b2.
Proof.
  intros H1. revert b2.
  induction H1 as [| d1 r1 Hd1 Hr1 IH]; intros b2 H2 Hlen Hv.
  - destruct b2; [reflexivity | discriminate].
  - destruct H2 as [| d2 r2 Hd2 Hr2]; [discriminate |].
    cbn [length be_value] in *. injection Hlen as Hlen. rewrite <- Hlen in Hv.
    pose proof (be_value_bounds r1 Hr1) as B1.
    pose proof (be_value_bounds r2 Hr2) as B2. rewrite <- Hlen in B2.
    assert (d1 = d2 /\ be_value r1 = be_value r2) as [Hd Hr]
      by (apply (Z.div_mod_unique (256 ^ Z.of_nat (length r1)));
          [left; lia | left; lia | lia]).
    subst d2. f_equal. apply IH; assumption.
Qed.

(** X1: converting a concatenation of two byte sequences gives the value of
    the first, shifted by the length of the second, plus the value of the
    second. *)
Theorem convert_bytes_of_concatenation (b1 b2 : list Z) :
  Forall is_byte b1 -> Forall is_byte b2 ->
  _convert_bytes_to_value (b1 ++ b2)
  = (v1 ← _convert_bytes_to_value b1;
     v2 ← _convert_bytes_to_value b2;
     Ok (v1 * 256 ^ Z.of_nat (length b2) + v2)).
Proof.
  intros H1 H2.
  rewrite (convert_be_value b1 H1), (convert_be_value b2 H2).
  rewrite convert_be_value by (apply Forall_app; split; assumption).
  cbn. rewrite be_value_app. reflexivity.
Qed.

Lemma convert_bytes_of_concatenation_witness :
  _convert_bytes_to_value ([1; 2] ++ [3])
  = (v1 ← _convert_bytes_to_value [1; 2];
     v2 ← _convert_bytes_to_value [3];
     Ok (v1 * 256 ^ Z.of_nat (length [3]) + v2)).
Proof.
  apply (convert_bytes_of_concatenation [1; 2] [3]);
    repeat constructor; unfold is_byte; lia.
Defined.

(** X2: two byte sequences of the same length that convert to the same
    value are the same sequence: at a fixed length the conversion loses
    nothing. *)
Theorem convert_bytes_injective_at_a_length (b1 b2 : list Z) :
  Forall is_byte b1 -> Forall is_byte b2 -> length b1 = length b2 ->
  _convert_bytes_to_value b1 = _convert_bytes_to_value b2 -> b1 = b2.
Proof.
  intros H1 H2 Hlen Hv.
  rewrite (convert_be_value b1 H1), (convert_be_value b2 H2) in Hv.
  injection Hv as Hv. apply be_value_injective; assumption.
Qed.

Lemma convert_bytes_injective_at_a_length_witness : [91; 160] = [91; 160].
Proof.
  apply (convert_bytes_injective_at_a_length [91; 160] [91; 160]);
    [repeat constructor; unfold is_byte; lia
    | repeat constructor; unfold is_byte; lia
    | reflexivity | reflexivity].
Defined.

(** X3: zero bytes in front of a byte sequence do not change the value it
    converts to, so sequences of different lengths can convert to the same
    value. *)
Theorem convert_bytes_ignores_leading_zeros (k : nat) (b : list Z) :
  Forall is_byte b ->
  _convert_bytes_to_value (repeat 0 k ++ b) = _convert_bytes_to_value b.
Proof.
  intros Hb.
  assert (Forall is_byte (repeat 0 k)) as Hz
    by (clear; induction k; constructor; [unfold is_byte; lia | assumption]).
  rewrite (convert_be_value b Hb).
  rewrite convert_be_value by (apply Forall_app; split; assumption).
  rewrite be_value_app, be_value_zeros, Z.mul_0_l. reflexivity.
Qed.

Lemma convert_bytes_ignores_leading_zeros_witness :
  _convert_bytes_to_value (repeat 0 2 ++ [91; 160])
  = _convert_bytes_to_value [91; 160].
Proof.
  apply (convert_bytes_ignores_leading_zeros 2 [91; 160]).
  repeat constructor; unfold is_byte; lia.
Defined.

(** *** The angle translation and the split loop *)

(** X4: the translation needs three angles: on a shorter list it raises
    [IndexError]; on a longer one it changes the first three angles and
    leaves every further angle as it is. *)
Theorem translate_angles_by_length (angles : list float) :
  match angles with
  | a0 :: a1 :: a2 :: rest =>
      translate_angles angles
      = Ok ((a0 + 90)%float :: (a1 + 90)%float :: (- a2)%float :: rest)
  | _ => translate_angles angles = Raise IndexError
  end.
Proof.
  destruct angles as [| a0 [| a1 [| a2 rest]]]; try reflexivity.
  unfold translate_angles, py_update_item. cbn. rewrite mul_minus_one.
  reflexivity.
Qed.

Lemma translate_short_angles (angles : list float) :
  (length angles < 3)%nat -> translate_angles angles = Raise IndexError.
Proof.
  destruct angles as [| a0 [| a1 [| a2 rest]]]; cbn [length]; intros H;
    try reflexivity; lia.
Qed.

(** X5: a leg frame with fewer than three angles raises [IndexError] before
    the split, the frame builder or the bus are used, whatever the protocol
    module is: the node is left as it was, and the batch ends there. *)
Theorem short_leg_frame_raises_index_error (P : hexapod_protocol)
    (frame : LegFrame) (rest : list LegFrame) (s : node) :
  (length (servo_angles frame) < 3)%nat ->
  leg_frame_step P frame s = (Raise IndexError, s)
  /\ _leg_frame_callback P (frame :: rest) s = (Raise IndexError, s).
Proof.
  intros H.
  assert (leg_frame_step P frame s = (Raise IndexError, s)) as Hstep.
  { unfold leg_frame_step, encode_leg_frame.
    rewrite (translate_short_angles _ H). reflexivity. }
  split; [exact Hstep |].
  cbn [_leg_frame_callback]. unfold mbind, M_mbind, M_bind.
  rewrite Hstep. reflexivity.
Qed.

Lemma short_leg_frame_raises_index_error_witness :
  leg_frame_step Example.protocol
    {| leg_nb := 1; servo_op_codes := [1; 1]; servo_angles := [10; 20]%float |}
    (Example.fresh [])
  = (Raise IndexError, Example.fresh [])
  /\ _leg_frame_callback Example.protocol
       ({| leg_nb := 1; servo_op_codes := [1; 1];
           servo_angles := [10; 20]%float |} :: [])
       (Example.fresh [])
     = (Raise IndexError, Example.fresh []).
Proof.
  apply (short_leg_frame_raises_index_error Example.protocol
           {| leg_nb := 1; servo_op_codes := [1; 1];
              servo_angles := [10; 20]%float |} [] (Example.fresh [])).
  cbn. lia.
Defined.

(** X6: the split loop applies the split to the angles in order and stops
    at the first that raises; the integer parts and the fractional parts it
    returns are the two components of the same results, in the order of the
    angles, after what the two lists held before. *)
Theorem split_angles_is_a_traversal (P : hexapod_protocol)
    (angles : list float) (ints fracs : list Z) :
  split_angles P angles ints fracs
  = (parts ← mapM (split_to_integer_and_float_parts P) angles;
     Ok (ints ++ parts.*1, fracs ++ parts.*2)).
Proof.
  revert ints fracs. induction angles as [| a rest IH]; intros ints fracs.
  - cbn. rewrite !app_nil_r. reflexivity.
  - cbn [split_angles mapM].
    destruct (split_to_integer_and_float_parts P a) as [p | e];
      [| reflexivity].
    cbn [mbind result_bind rbind]. rewrite IH.
    destruct (mapM (split_to_integer_and_float_parts P) rest) as [ps | e];
      [| reflexivity].
    cbn. rewrite <- !app_assoc. reflexivity.
Qed.

(** *** A batch of leg frames *)

Lemma after_exchange_nothing (s : node) : after_exchange s [] 0 = s.
Proof.
  destruct s. unfold after_exchange. cbn.
  rewrite app_nil_r, Nat.add_0_r. reflexivity.
Qed.

Lemma after_exchange_twice (s : node) (c1 c2 : list spi_call) (n1 n2 : nat) :
  after_exchange (after_exchange s c1 n1) c2 n2
  = after_exchange s (c1 ++ c2) (n1 + n2).
Proof.
  unfold after_exchange. cbn. rewrite <- app_assoc, Nat.add_assoc.
  reflexivity.
Qed.

(** The writes of the ONE_LEG exchanges of a list of payloads. *)
Lemma leg_frame_callback_run (P : hexapod_protocol)
    (leg_frames : list LegFrame) (s : node) :
  _leg_frame_callback P leg_frames s
  = ((batch_payloads P leg_frames).2,
     after_exchange s
       (calls_of_exchanges P
          (map (fun message2 => (ONE_LEG, message2))
               (batch_payloads P leg_frames).1))
       0).
Proof.
  revert s. induction leg_frames as [| frame rest IH]; intros s.
  - cbn. rewrite after_exchange_nothing. reflexivity.
  - cbn [_leg_frame_callback batch_payloads].
    unfold mbind at 1, M_mbind, M_bind, leg_frame_step. run_method.
    destruct (encode_leg_frame P frame) as [message2 | e].
    + rewrite send_data_run, IH, after_exchange_twice. reflexivity.
    + cbn. rewrite after_exchange_nothing. reflexivity.
Qed.

(** X7: a batch of leg frames is sent frame by frame, in order, each as
    one ONE_LEG exchange (the announcement, then the payload); the first
    frame whose encoding raises ends the batch with that exception, and
    neither it nor any frame after it reaches the bus. *)
Theorem leg_frames_are_sent_in_order_until_one_raises
    (P : hexapod_protocol) (leg_frames : list LegFrame) (s : node) :
  (_leg_frame_callback P leg_frames s).1 = (batch_payloads P leg_frames).2
  /\ spi_calls (_leg_frame_callback P leg_frames s).2
     = spi_calls s
       ++ flat_map
            (fun message2 =>
               [Writebytes2 [FRAME_LENGTHS_TRANSMIT P ONE_LEG];
                Writebytes2 message2])
            (batch_payloads P leg_frames).1.
Proof.
  rewrite leg_frame_callback_run. cbn [fst snd after_exchange spi_calls].
  split; [reflexivity |]. f_equal.
  induction (batch_payloads P leg_frames).1 as [| m ms IH]; [reflexivity |].
  cbn. rewrite <- IH. reflexivity.
Qed.

(** X8: the command path is fire-and-forget: whatever the batch and however
    it ends, [_leg_frame_callback] reads nothing from the controller, logs
    nothing, publishes no temperature and prints no voltage. *)
Theorem leg_frame_callback_only_writes (P : hexapod_protocol)
    (leg_frames : list LegFrame) (s : node) :
  let s' := (_leg_frame_callback P leg_frames s).2 in
  miso_pos s' = miso_pos s
  /\ logged s' = logged s
  /\ mcu_temperature s' = mcu_temperature s
  /\ printed_voltage s' = printed_voltage s
  /\ Forall (fun c => exists values, c = Writebytes2 values)
       (drop (length (spi_calls s)) (spi_calls s')).
Proof.
  cbn zeta. rewrite leg_frame_callback_run.
  cbn [snd after_exchange miso_pos logged mcu_temperature printed_voltage
       spi_calls].
  rewrite Nat.add_0_r. repeat (split; [reflexivity |]).
  rewrite drop_app_length.
  induction (batch_payloads P leg_frames).1 as [| m ms IH]; [constructor |].
  cbn. repeat (constructor; [eexists; reflexivity |]). exact IH.
Qed.

(** *** Every run is made of whole exchanges *)







(** *** Integer division into a float does not overflow below [2^1023] *)

Lemma digits2_pos_bounds (p : positive) :
  2 ^ (Z.pos (digits2_pos p) - 1) <= Z.pos p < 2 ^ Z.pos (digits2_pos p).
Proof.
  induction p as [p IH | p IH |]; cbn [digits2_pos].
  - rewrite Pos2Z.inj_succ, (Pos2Z.inj_xI p).
    replace (Z.succ (Z.pos (digits2_pos p)) - 1) with (Z.succ (Z.pos (digits2_pos p) - 1)) by lia.
    rewrite !Z.pow_succ_r by lia.
    generalize dependent (2 ^ (Z.pos (digits2_pos p) - 1)).
    generalize (2 ^ Z.pos (digits2_pos p)). intros; lia.
  - rewrite Pos2Z.inj_succ, (Pos2Z.inj_xO p).
    replace (Z.succ (Z.pos (digits2_pos p)) - 1) with (Z.succ (Z.pos (digits2_pos p) - 1)) by lia.
    rewrite !Z.pow_succ_r by lia.
    generalize dependent (2 ^ (Z.pos (digits2_pos p) - 1)).
    generalize (2 ^ Z.pos (digits2_pos p)). intros; lia.
  - cbn. lia.
Qed.

Lemma Zdigits2_upper (x : Z) : 0 <= x -> x < 2 ^ Zdigits2 x.
Proof.
  destruct x as [| p | p]; intros Hx; [cbn; lia | | lia].
  apply digits2_pos_bounds.
Qed.

Lemma Zdigits2_nonneg (x : Z) : 0 <= Zdigits2 x.
Proof. destruct x; cbn; lia. Qed.

Lemma Zdigits2_le (x j : Z) : 0 <= j -> 0 <= x <= 2 ^ j -> Zdigits2 x <= j + 1.
Proof.
  intros Hj Hx. destruct x as [| p | p]; [cbn; lia | | lia].
  cbn [Zdigits2]. pose proof (digits2_pos_bounds p) as [Hlo _].
  destruct (Z.le_gt_cases (Z.pos (digits2_pos p)) (j + 1)) as [H | H]; [exact H |].
  assert (2 ^ (j + 1) <= 2 ^ (Z.pos (digits2_pos p) - 1)) as Hp
    by (apply Z.pow_le_mono_r; lia).
  rewrite Z.pow_add_r in Hp by lia.
  assert (0 < 2 ^ j) by (apply Z.pow_pos_nonneg; lia). lia.
Qed.

Lemma shr_1_halves (r : shr_record) :
  0 <= shr_m r -> shr_m (shr_1 r) = shr_m r / 2.
Proof.
  destruct r as [m b s]. cbn [shr_m]. intros Hm.
  rewrite <- Z.div2_div.
  destruct m as [| [p | p |] | p]; try reflexivity; lia.
Qed.

Lemma iter_shr_1_divides (p : positive) (r : shr_record) :
  0 <= shr_m r -> shr_m (SpecFloat.iter_pos shr_1 p r) = shr_m r / 2 ^ Z.pos p.
Proof.
  revert r. induction p as [p IH | p IH |]; intros r Hr; cbn [SpecFloat.iter_pos].
  - assert (0 <= shr_m (shr_1 r)) as H1
      by (rewrite shr_1_halves by lia; apply Z.div_pos; lia).
    assert (0 < 2 ^ Z.pos p) as Hp by (apply Z.pow_pos_nonneg; lia).
    assert (0 <= shr_m (SpecFloat.iter_pos shr_1 p (shr_1 r))) as H2
      by (rewrite IH by lia; apply Z.div_pos; lia).
    rewrite IH, IH, shr_1_halves by lia.
    rewrite !Z.div_div by lia. f_equal.
    rewrite (Pos2Z.inj_xI p).
    replace (2 * Z.pos p + 1) with (1 + Z.pos p + Z.pos p) by lia.
    rewrite !Z.pow_add_r by lia. change (2 ^ 1) with 2. ring.
  - assert (0 < 2 ^ Z.pos p) as Hp by (apply Z.pow_pos_nonneg; lia).
    assert (0 <= shr_m (SpecFloat.iter_pos shr_1 p r)) as H2
      by (rewrite IH by lia; apply Z.div_pos; lia).
    rewrite IH, IH by lia. rewrite Z.div_div by lia. f_equal.
    rewrite (Pos2Z.inj_xO p). rewrite <- Z.pow_add_r by lia. f_equal. lia.
  - rewrite shr_1_halves by lia. reflexivity.
Qed.

Lemma Zdigits2_lt_pow (x d : Z) : 0 <= d -> 0 <= x < 2 ^ d -> Zdigits2 x <= d.
Proof.
  intros Hd Hx. destruct x as [| p | p]; [cbn; lia | | lia].
  cbn [Zdigits2]. pose proof (digits2_pos_bounds p) as [Hlo _].
  destruct (Z.le_gt_cases (Z.pos (digits2_pos p)) d) as [H | H]; [exact H |].
  assert (2 ^ d <= 2 ^ (Z.pos (digits2_pos p) - 1)) as Hp
    by (apply Z.pow_le_mono_r; lia).
  lia.
Qed.

Lemma shr_record_of_loc_m (m : Z) (l : location) :
  shr_m (shr_record_of_loc m l) = m.
Proof. destruct l as [| []]; reflexivity. Qed.

Lemma shr_spec (r : shr_record) (e n : Z) :
  0 <= shr_m r ->
  0 <= shr_m (shr r e n).1
  /\ (shr r e n).2 = e + Z.max n 0
  /\ shr_m (shr r e n).1 = shr_m r / 2 ^ Z.max n 0.
Proof.
  intros Hr. destruct n as [| p | p]; cbn [shr fst snd].
  - rewrite Z.div_1_r. cbn. lia.
  - rewrite iter_shr_1_divides by lia.
    replace (Z.max (Z.pos p) 0) with (Z.pos p) by lia.
    assert (0 < 2 ^ Z.pos p) by (apply Z.pow_pos_nonneg; lia).
    split; [apply Z.div_pos; lia | split; [reflexivity | reflexivity]].
  - replace (Z.max (Z.neg p) 0) with 0 by lia. rewrite Z.div_1_r. lia.
Qed.

Lemma round_nearest_even_bounds (m : Z) (l : location) :
  m <= round_nearest_even m l <= m + 1.
Proof. destruct l as [| []]; cbn; try destruct (Z.even m); lia. Qed.

Lemma div_pow2_bound (m d k : Z) :
  0 <= d -> 0 <= k -> 0 <= m < 2 ^ d -> 0 <= m / 2 ^ k < 2 ^ Z.max (d - k) 0.
Proof.
  intros Hd Hk Hm.
  assert (0 < 2 ^ k) by (apply Z.pow_pos_nonneg; lia).
  split; [apply Z.div_pos; lia |].
  destruct (Z.le_gt_cases k d) as [Hle | Hgt].
  - replace (Z.max (d - k) 0) with (d - k) by lia.
    apply Z.div_lt_upper_bound; [lia |].
    rewrite <- Z.pow_add_r by lia. replace (k + (d - k)) with d by lia. lia.
  - replace (Z.max (d - k) 0) with 0 by lia.
    rewrite Z.div_small; [cbn; lia |].
    assert (2 ^ d <= 2 ^ k) by (apply Z.pow_le_mono_r; lia). lia.
Qed.

(** Rounding a non-negative mantissa whose value is below [2^1023] gives a
    zero or a finite float of positive sign, never an infinity. *)
Lemma binary_round_aux_finite (m e d : Z) (l : location) :
  0 <= d -> 0 <= m < 2 ^ d -> d + e <= 1023 -> e <= 971 ->
  match binary_round_aux prec emax false m e l with
  | S754_zero false | S754_finite false _ _ => True
  | _ => False
  end.
Proof.
  intros Hd Hm Hde He. unfold binary_round_aux, shr_fexp.
  pose proof (Zdigits2_lt_pow m d Hd Hm) as HD.
  pose proof (Zdigits2_nonneg m) as HD0.
  set (n1 := fexp prec emax (Zdigits2 m + e) - e).
  assert (n1 <= 970 - e \/ n1 <= 0) as Hn1
    by (unfold n1, fexp, SpecFloat.emin, prec, emax; lia).
  pose proof (shr_spec (shr_record_of_loc m l) e n1) as S1.
  rewrite shr_record_of_loc_m in S1. specialize (S1 ltac:(lia)).
  destruct (shr (shr_record_of_loc m l) e n1) as [r1 e1].
  cbn [fst snd] in S1. destruct S1 as (Hr1 & -> & Hm1).
  set (m1 := round_nearest_even (shr_m r1) (loc_of_shr_record r1)).
  pose proof (round_nearest_even_bounds (shr_m r1) (loc_of_shr_record r1)) as Hrne.
  fold m1 in Hrne.
  pose proof (div_pow2_bound m d (Z.max n1 0) Hd ltac:(lia) Hm) as Hdiv.
  rewrite <- Hm1 in Hdiv.
  assert (Zdigits2 m1 <= Z.max (d - Z.max n1 0) 0 + 1) as Hd1
    by (apply Zdigits2_le; lia).
  set (n2 := fexp prec emax (Zdigits2 m1 + (e + Z.max n1 0)) - (e + Z.max n1 0)).
  assert (e + Z.max n1 0 + Z.max n2 0 <= 971) as Hn2
    by (unfold n2, fexp, SpecFloat.emin, prec, emax; lia).
  pose proof (shr_spec (shr_record_of_loc m1 loc_Exact) (e + Z.max n1 0) n2) as S2.
  rewrite shr_record_of_loc_m in S2. specialize (S2 ltac:(lia)).
  destruct (shr (shr_record_of_loc m1 loc_Exact) (e + Z.max n1 0) n2) as [r2 e2].
  cbn [fst snd] in S2. destruct S2 as (Hr2 & -> & _).
  destruct (shr_m r2) as [| q | q]; [exact I | | lia].
  replace (e + Z.max n1 0 + Z.max n2 0 <=? emax - prec) with true; [exact I |].
  symmetry. apply Z.leb_le. unfold emax, prec. lia.
Qed.

(** [a / b] returns a float for every non-negative [a] below [2^1023] and
    every positive [b]. *)
Lemma py_int_truediv_returns (a b : Z) :
  0 <= a < 2 ^ 1023 -> 0 < b -> exists t, py_int_truediv a b = Ok t.
Proof.
  intros Ha Hb. unfold py_int_truediv.
  destruct (b =? 0) eqn:Eb; [apply Z.eqb_eq in Eb; lia |].
  destruct b as [| q | q]; try lia.
  destruct a as [| p | p]; try lia; cbn [Z2SF SFdiv xorb]; [eexists; reflexivity |].
  unfold SFdiv_core_binary.
  set (e' := Z.min _ (0 - 0)).
  assert (e' <= 0) as He' by (unfold e'; lia).
  set (m' := match 0 - 0 - e' with 0 => Z.pos p | Z.pos _ => Z.shiftl (Z.pos p) (0 - 0 - e') | Z.neg _ => 0 end).
  assert (m' = Z.pos p * 2 ^ (- e')) as Hm'.
  { unfold m'. destruct (0 - 0 - e') as [| s | s] eqn:Es; try lia.
    - replace (- e') with 0 by lia. cbn. lia.
    - rewrite Z.shiftl_mul_pow2 by lia. do 2 f_equal. lia. }
  clearbody m'.
  pose proof (Z_div_mod m' (Z.pos q) ltac:(lia)) as Hdm.
  destruct (Z.div_eucl m' (Z.pos q)) as [qq r]. destruct Hdm as [Hdm Hr].
  assert (0 < 2 ^ (- e')) as Hpow by (apply Z.pow_pos_nonneg; lia).
  assert (0 <= qq <= m') as Hqq by nia.
  assert (m' < 2 ^ (1023 - e')) as Hlt.
  { rewrite Hm'. replace (1023 - e') with (1023 + - e') by lia.
    rewrite Z.pow_add_r by lia. nia. }
  pose proof (binary_round_aux_finite qq e' (1023 - e') (new_location (Z.pos q) r)
                ltac:(lia) ltac:(lia) ltac:(lia) ltac:(lia)) as Hfin.
  destruct (binary_round_aux prec emax false qq e' _) as [[] | [] | | [] ? ?];
    try contradiction; eexists; reflexivity.
Qed.

Lemma response_tail_below_2p1023 (s : node) (len skip : nat) :
  (len <= skip + 127)%nat ->
  0 <= big_endian_value (drop skip (response s len)) < 2 ^ 1023.
Proof.
  intros Hlen. rewrite big_endian_value_rec.
  pose proof (be_value_bounds (drop skip (response s len))
                (Forall_drop _ _ _ (response_bytes s len))) as [Hlo Hhi].
  rewrite length_drop, response_length in Hhi.
  assert (256 ^ Z.of_nat (len - skip) <= 256 ^ 127) as Hpow
    by (apply Z.pow_le_mono_r; lia).
  assert (256 ^ 127 < 2 ^ 1023) as Hconst by (vm_compute; reflexivity).
  split; [exact Hlo |].
  eapply Z.lt_trans; [| exact Hconst].
  eapply Z.lt_le_trans; [exact Hhi | exact Hpow].
Qed.

(** *** The telemetry polls on short and on long responses *)

(** X10: for a Temperature response of at most 129 bytes the poll cannot
    raise: it returns and publishes exactly one message, stamped with the
    clock and with variance 0. *)
Theorem temperature_poll_returns (P : hexapod_protocol) (s : node) :
  (FRAME_LENGTHS_RECEIVE P TEMPERATURE <= 129)%nat ->
  (get_temperature_info P s).1 = Ok tt
  /\ exists degrees,
       mcu_temperature (get_temperature_info P s).2
       = mcu_temperature s
         ++ [{| stamp := clock s; temperature := degrees; variance := 0 |}].
Proof.
  intros Hlen. unfold get_temperature_info. rewrite send_read_run.
  run_method. rewrite convert_response_tail. cbn [fst snd].
  destruct (py_int_truediv_returns
              (big_endian_value
                 (drop 2 (response s (FRAME_LENGTHS_RECEIVE P TEMPERATURE))))
              1000) as [t Ht];
    [apply response_tail_below_2p1023; lia | lia |].
  rewrite Ht. cbn. split; [reflexivity | exists t; reflexivity].
Qed.

Lemma temperature_poll_returns_witness :
  (get_temperature_info Example.protocol (Example.fresh [])).1 = Ok tt
  /\ exists degrees,
       mcu_temperature
         (get_temperature_info Example.protocol (Example.fresh [])).2
       = mcu_temperature (Example.fresh [])
         ++ [{| stamp := clock (Example.fresh []); temperature := degrees;
                variance := 0 |}].
Proof.
  apply (temperature_poll_returns Example.protocol (Example.fresh [])).
  cbn. lia.
Defined.

(** X11: for an Adc response of at most 130 bytes the poll cannot raise: it
    returns and prints exactly one voltage. *)
Theorem adc_poll_returns (P : hexapod_protocol) (s : node) :
  (FRAME_LENGTHS_RECEIVE P ADC <= 130)%nat ->
  (get_adc_info P s).1 = Ok tt
  /\ exists voltage,
       printed_voltage (get_adc_info P s).2 = printed_voltage s ++ [voltage].
Proof.
  intros Hlen. unfold get_adc_info. rewrite send_read_run.
  run_method. rewrite convert_response_tail. cbn [fst snd].
  destruct (py_int_truediv_returns
              (big_endian_value
                 (drop 3 (response s (FRAME_LENGTHS_RECEIVE P ADC))))
              4096) as [q Hq];
    [apply response_tail_below_2p1023; lia | lia |].
  rewrite Hq. cbn. split; [reflexivity | eexists; reflexivity].
Qed.

Lemma adc_poll_returns_witness :
  (get_adc_info Example.protocol (Example.fresh [])).1 = Ok tt
  /\ exists voltage,
       printed_voltage (get_adc_info Example.protocol (Example.fresh [])).2
       = printed_voltage (Example.fresh []) ++ [voltage].
Proof.
  apply (adc_poll_returns Example.protocol (Example.fresh [])).
  cbn. lia.
Defined.

(** X12: a Temperature response of two bytes or fewer is not rejected: the
    bytes after the header are none, their value is 0 and the poll
    publishes 0.0 degrees. *)
Theorem short_temperature_response_reads_zero (P : hexapod_protocol)
    (s : node) :
  (FRAME_LENGTHS_RECEIVE P TEMPERATURE <= 2)%nat ->
  (get_temperature_info P s).1 = Ok tt
  /\ mcu_temperature (get_temperature_info P s).2
     = mcu_temperature s
       ++ [{| stamp := clock s; temperature := 0; variance := 0 |}].
Proof.
  intros Hlen. unfold get_temperature_info. rewrite send_read_run.
  rewrite drop_ge by (rewrite response_length; lia).
  split; reflexivity.
Qed.

Lemma short_temperature_response_reads_zero_witness :
  (get_temperature_info
     (with_receive_lengths (fun _ => 2%nat) Example.protocol)
     (Example.fresh [])).1 = Ok tt
  /\ mcu_temperature
       (get_temperature_info
          (with_receive_lengths (fun _ => 2%nat) Example.protocol)
          (Example.fresh [])).2
     = mcu_temperature (Example.fresh [])
       ++ [{| stamp := clock (Example.fresh []); temperature := 0;
              variance := 0 |}].
Proof.
  apply (short_temperature_response_reads_zero
           (with_receive_lengths (fun _ => 2%nat) Example.protocol)
           (Example.fresh [])).
  cbn. lia.
Defined.

(** X13: an Adc response of three bytes or fewer is not rejected either:
    the poll prints 0.0 V. *)
Theorem short_adc_response_reads_zero (P : hexapod_protocol) (s : node) :
  (FRAME_LENGTHS_RECEIVE P ADC <= 3)%nat ->
  (get_adc_info P s).1 = Ok tt
  /\ printed_voltage (get_adc_info P s).2 = printed_voltage s ++ [0%float].
Proof.
  intros Hlen. unfold get_adc_info. rewrite send_read_run.
  rewrite drop_ge by (rewrite response_length; lia).
  split; reflexivity.
Qed.

Lemma short_adc_response_reads_zero_witness :
  (get_adc_info (with_receive_lengths (fun _ => 3%nat) Example.protocol)
     (Example.fresh [])).1 = Ok tt
  /\ printed_voltage
       (get_adc_info (with_receive_lengths (fun _ => 3%nat) Example.protocol)
          (Example.fresh [])).2
     = printed_voltage (Example.fresh []) ++ [0%float].
Proof.
  apply (short_adc_response_reads_zero
           (with_receive_lengths (fun _ => 3%nat) Example.protocol)
           (Example.fresh [])).
  cbn. lia.
Defined.

(** X14: the poll never looks at the first two bytes of a Temperature
    response: two nodes whose responses agree after the header return or
    raise alike and publish the same temperature. *)
Theorem temperature_poll_ignores_the_header (P : hexapod_protocol)
    (s1 s2 : node) :
  drop 2 (response s1 (FRAME_LENGTHS_RECEIVE P TEMPERATURE))
  = drop 2 (response s2 (FRAME_LENGTHS_RECEIVE P TEMPERATURE)) ->
  (get_temperature_info P s1).1 = (get_temperature_info P s2).1
  /\ map temperature
       (drop (length (mcu_temperature s1))
             (mcu_temperature (get_temperature_info P s1).2))
     = map temperature
         (drop (length (mcu_temperature s2))
               (mcu_temperature (get_temperature_info P s2).2)).
Proof.
  intros Hd. unfold get_temperature_info. rewrite !send_read_run.
  rewrite Hd.
  destruct (_convert_bytes_to_value
              (drop 2 (response s2 (FRAME_LENGTHS_RECEIVE P TEMPERATURE))))
    as [raw | e]; run_method.
  - destruct (py_int_truediv raw 1000) as [t | e]; cbn.
    + rewrite !drop_app_length. split; reflexivity.
    + rewrite !drop_all. split; reflexivity.
  - cbn. rewrite !drop_all. split; reflexivity.
Qed.

Lemma temperature_poll_ignores_the_header_witness :
  (get_temperature_info Example.protocol
     (Example.fresh [Byte.x04; Byte.x03; Byte.x5b; Byte.xa0])).1
  = (get_temperature_info Example.protocol
       (Example.fresh [Byte.xff; Byte.xff; Byte.x5b; Byte.xa0])).1
  /\ map temperature
       (drop (length (mcu_temperature
                        (Example.fresh [Byte.x04; Byte.x03; Byte.x5b; Byte.xa0])))
             (mcu_temperature
                (get_temperature_info Example.protocol
                   (Example.fresh [Byte.x04; Byte.x03; Byte.x5b; Byte.xa0])).2))
     = map temperature
         (drop (length (mcu_temperature
                          (Example.fresh [Byte.xff; Byte.xff; Byte.x5b; Byte.xa0])))
               (mcu_temperature
                  (get_temperature_info Example.protocol
                     (Example.fresh [Byte.xff; Byte.xff; Byte.x5b; Byte.xa0])).2)).
Proof.
  apply (temperature_poll_ignores_the_header Example.protocol
           (Example.fresh [Byte.x04; Byte.x03; Byte.x5b; Byte.xa0])
           (Example.fresh [Byte.xff; Byte.xff; Byte.x5b; Byte.xa0])).
  reflexivity.
Defined.

(** *** Construction of the node *)

(** X15: if the SPI device cannot be opened, [__init__] logs a fatal message
    and exits with status 1 without any call on the bus.  If it can, the
    node makes exactly one INFO exchange and is set up with the given bus
    speed and mode 0 whenever the info check returns or raises one of the
    four protocol exceptions: a malformed response or an incompatible,
    older or newer protocol version does not stop the node from starting;
    any other exception leaves [__init__]. *)
Theorem node_construction (P : hexapod_protocol) (spi_speed : Z) (s : node) :
  (forall e,
     (__init__ P (Raise e) spi_speed s).1 = Exited 1
     /\ spi_calls (__init__ P (Raise e) spi_speed s).2 = spi_calls s
     /\ logged (__init__ P (Raise e) spi_speed s).2
        = logged s
          ++ [(LogFatal,
               "Cannot open SPI connection to Hexapod Hardware Controller! Aborting..."%string)])
  /\ (__init__ P (Ok tt) spi_speed s).1
     = match check_info_frame P (response s (FRAME_LENGTHS_RECEIVE P INFO)) with
       | Ok _ => Started (wiring_of spi_speed)
       | Raise e =>
           if is_protocol_exception e then Started (wiring_of spi_speed)
           else Failed e
       end
  /\ spi_calls (__init__ P (Ok tt) spi_speed s).2
     = spi_calls s ++ exchange_calls P INFO (INFO_FRAME_LIST P)
  /\ spi (wiring_of spi_speed) = {| max_speed_hz := spi_speed; mode := 0 |}.
Proof.
  split; [intros e; repeat split |].
  unfold __init__, get_hhc_info. rewrite send_read_run.
  unfold report_info_frame.
  destruct (check_info_frame P _) as [[] | []]; repeat split.
Qed.

Lemma registered_keeps_printed_voltage (P : hexapod_protocol)
    (spi_speed : Z) (m : method) (s : node) :
  registered (wiring_of spi_speed) m = true ->
  printed_voltage (invoke P m s).2 = printed_voltage s.
Proof.
  destruct m as [| | | leg_frames]; cbn [invoke]; intros Hreg.
  - unfold get_hhc_info. rewrite send_read_run. unfold report_info_frame.
    destruct (check_info_frame P _) as [[] | []]; reflexivity.
  - discriminate.
  - unfold get_temperature_info. rewrite send_read_run. run_method.
    rewrite convert_response_tail.
    destruct (py_int_truediv _ 1000); reflexivity.
  - rewrite leg_frame_callback_run. reflexivity.
Qed.

(** X16: the ADC is never polled: the timers that [__init__] creates call
    the info check and the temperature poll only, so whatever the timers
    and the subscription make the node do, it never prints a voltage. *)
Theorem registered_methods_never_print_a_voltage (P : hexapod_protocol)
    (spi_speed : Z) (ms : list method) (s : node) :
  Forall (fun m => registered (wiring_of spi_speed) m = true) ms ->
  registered (wiring_of spi_speed) Get_adc_info = false
  /\ printed_voltage (invoke_all P ms s).2 = printed_voltage s.
Proof.
  intros Hms. split; [reflexivity |]. revert s.
  induction Hms as [| m rest Hm Hrest IH]; intros s; [reflexivity |].
  cbn [invoke_all]. unfold mbind, M_mbind, M_bind.
  pose proof (registered_keeps_printed_voltage P spi_speed m s Hm) as Hp.
  destruct (invoke P m s) as [[[] | e] s1]; cbn [snd] in Hp.
  - rewrite IH. exact Hp.
  - exact Hp.
Qed.

Lemma registered_methods_never_print_a_voltage_witness :
  registered (wiring_of 1000000) Get_adc_info = false
  /\ printed_voltage
       (invoke_all Example.protocol
          [Get_hhc_info; Get_temperature_info;
           Leg_frame_callback
             [{| leg_nb := 2; servo_op_codes := [1; 1; 1];
                 servo_angles := [10; -20; 30]%float |}]]
          (Example.fresh [])).2
     = printed_voltage (Example.fresh []).
Proof.
  apply (registered_methods_never_print_a_voltage Example.protocol 1000000
           [Get_hhc_info; Get_temperature_info;
            Leg_frame_callback
              [{| leg_nb := 2; servo_op_codes := [1; 1; 1];
                  servo_angles := [10; -20; 30]%float |}]]
           (Example.fresh [])).
  repeat constructor.
Defined.
